(** * A shallow embedding of PySyft's identifier and worker core

    Sources embedded here:
    - [src/syft/core/common/uid.py]: [UID.__init__], [UID.__hash__],
      [UID.__eq__], [UID.__repr__], [UID._object2proto], [UID._proto2object];
    - [src/syft/core/worker/worker.py]: [Worker.__init__],
      [Worker.recv_msg], [Worker._send_msg], [Worker._recv_msg],
      [Worker.__repr__].

    The Python standard library pieces the code calls ([uuid.UUID] built
    from 16 bytes, [uuid.uuid4], [UUID.bytes], [UUID.int], [UUID.__eq__],
    [UUID.variant], [UUID.version], [UUID.__str__]) are written out after
    their CPython definitions. *)

From Stdlib Require Import ZArith List ListDec Ascii String Lia.
From Stdlib Require Import Init.Byte Strings.Byte.
Import ListNotations.
Open Scope string_scope.
Open Scope list_scope.
Open Scope Z_scope.

(** ** Python exceptions and fallible results *)

Inductive exn : Type :=
| KeyError (msg : string)
| ValueError (msg : string)
| NotImplementedError.

Inductive result (A : Type) : Type :=
| Ok (a : A)
| Err (e : exn).
Arguments Ok {A} a.
Arguments Err {A} e.

(** ** The [uuid] module: a UUID is its 128-bit integer [UUID.int] *)

Record UUID : Type := mkUUID { uuid_int : Z }.

(** A well-formed UUID holds a 128-bit value (the [uuid.UUID] constructor
    rejects anything else). *)
Definition uuid_wf (u : UUID) : Prop := 0 <= uuid_int u < 2 ^ 128.

(** [UUID.__eq__]: two UUIDs are equal iff their [int]s are. *)
Definition uuid_eqb (a b : UUID) : bool := Z.eqb (uuid_int a) (uuid_int b).

Definition byte_to_Z (b : byte) : Z := Z.of_N (Byte.to_N b).

Definition byte_of_Z (z : Z) : byte :=
  match Byte.of_N (Z.to_N z) with Some b => b | None => x00 end.

(** Little-endian digits of [i], [n] of them. *)
Fixpoint le_bytes (n : nat) (i : Z) : list byte :=
  match n with
  | O => []
  | S n' => byte_of_Z (i mod 256) :: le_bytes n' (i / 256)
  end.

(** [int.to_bytes(n, 'big')]. *)
Definition int_to_bytes_be (n : nat) (i : Z) : list byte := rev (le_bytes n i).

(** [int.from_bytes(b, 'big')]. *)
Definition int_from_bytes_be (b : list byte) : Z :=
  fold_left (fun acc x => acc * 256 + byte_to_Z x) b 0.

(** [UUID.bytes]: [self.int.to_bytes(16, 'big')]. *)
Definition uuid_bytes (u : UUID) : list byte := int_to_bytes_be 16 (uuid_int u).

(** [uuid.UUID(bytes=b)]:
    [if len(bytes) != 16: raise ValueError('bytes is not a 16-char string')]
    then [int = int.from_bytes(bytes, 'big')]. *)
Definition uuid_msg_bad_length : string := "bytes is not a 16-char string".

Definition UUID_of_bytes (b : list byte) : result UUID :=
  if Nat.eqb (List.length b) 16
  then Ok (mkUUID (int_from_bytes_be b))
  else Err (ValueError uuid_msg_bad_length).

(** ** [UID] (uid.py) *)

(** A [UID] keeps its [value] and the [as_wrapper] flag stored by
    [Serializable.__init__(as_wrapper=as_wrapper)]. *)
Record UID : Type := mkUID { uid_value : UUID; uid_as_wrapper : bool }.

Definition uid_wf (u : UID) : Prop := uuid_wf (uid_value u).

(** Python values a [UID] may be compared against. *)
Inductive pyval : Type :=
| PNone
| PInt (z : Z)
| PStr (s : string)
| PUUIDv (u : UUID)
| PUIDv (u : UID).

(** [UID.__hash__]: [return self.value.int]. *)
Definition uid_hash (u : UID) : Z := uuid_int (uid_value u).

(** [UID.__eq__]:
    [if isinstance(other, UID): return self.value == other.value];
    otherwise the body falls off its end.  [Some b] is the bool returned,
    [None] is Python's [None] returned by the fall-through. *)
Definition uid_eq (self : UID) (other : pyval) : option bool :=
  match other with
  | PUIDv o => Some (uuid_eqb (uid_value self) (uid_value o))
  | _ => None
  end.

(** [ProtoUID(obj_type=..., value=..., as_wrapper=...)]. *)
Record ProtoUID : Type := mkProtoUID {
  proto_obj_type : string;
  proto_value : list byte;
  proto_as_wrapper : bool
}.

(** [UID._object2proto]: [obj_type] is [type(self).__module__ + "." +
    type(self).__name__]. *)
Definition uid_obj_type : string :=
  String.append "syft.core.common.uid" (String.append "." "UID").

Definition _object2proto (self : UID) : ProtoUID :=
  {| proto_obj_type := uid_obj_type;
     proto_value := uuid_bytes (uid_value self);
     proto_as_wrapper := uid_as_wrapper self |}.

(** What [_proto2object] hands back: the raw [uuid.UUID], or a domain [UID]. *)
Inductive deserialized : Type :=
| RawUUID (v : UUID)
| DomainUID (u : UID).

(** [UID._proto2object]:
    [value = uuid.UUID(bytes=proto.value)];
    [if proto.as_wrapper: return value]; [return UID(value=value)]
    (the constructor's [as_wrapper] defaults to [False]). *)
Definition _proto2object (proto : ProtoUID) : result deserialized :=
  match UUID_of_bytes (proto_value proto) with
  | Err e => Err e
  | Ok value =>
      if proto_as_wrapper proto then Ok (RawUUID value)
      else Ok (DomainUID (mkUID value false))
  end.

(** ** [Worker] (worker.py) *)

(** A framework AST node, stored verbatim by the worker. *)
Inductive ast : Type := AstNode (path : string).

(** A framework: [fw.ast.attrs], its top-level names in insertion order. *)
Record Framework : Type := mkFramework { fw_attrs : list (string * ast) }.

(** [ObjectStore()]: the worker's store, keyed by UID. *)
Record ObjectStore : Type := mkObjectStore { store_objects : list (UID * pyval) }.

(** The process-wide [message_service_mapping] the worker binds. *)
Inductive Router : Type := message_service_mapping.

(** The kind of a [syft.core.message] request, as the collector logs it. *)
Inductive msg_kind : Type :=
| KSaveObject | KGetObject | KDeleteObject | KRunClassMethod | KRunFunctionOrConstructor.

(** One observed dispatch: message kind, success or failure, elapsed time. *)
Record stats_entry : Type := mkStatsEntry {
  entry_kind : msg_kind;
  entry_success : bool;
  entry_elapsed : Z
}.

(** Modelled from the spec: [WorkerStats] (supervisor/stats.py, not among the
    sources), the statistics collector that receives, for every dispatch in
    debug mode, the message kind, success or failure and elapsed time
    (spec 4.5 and 6); it keeps them in order. *)
Record WorkerStats : Type := mkStats { stats_log : list stats_entry }.

(** [WorkerStats()]: a fresh collector has observed nothing. *)
Definition mkWorkerStats : WorkerStats := mkStats [].

Record Worker : Type := mkWorker {
  w_id : string;
  w_store : ObjectStore;
  w_frameworks : list (string * ast);   (* [self.frameworks.attrs] *)
  w_msg_router : Router;
  w_worker_stats : option WorkerStats
}.

Definition dup_framework_msg : string :=
  "Framework already imported. Why are you importing it twice?".

(** [name in self.frameworks.attrs]. *)
Definition attrs_mem (name : string) (attrs : list (string * ast)) : bool :=
  existsb (fun p => String.eqb (fst p) name) attrs.

(** Inner loop: [for name, ast in fw.ast.attrs.items(): ...]. *)
Fixpoint register_attrs (attrs : list (string * ast)) (items : list (string * ast))
  : result (list (string * ast)) :=
  match items with
  | [] => Ok attrs
  | (name, a) :: rest =>
      if attrs_mem name attrs then Err (KeyError dup_framework_msg)
      else register_attrs (attrs ++ [(name, a)]) rest
  end.

(** Outer loop: [for fw in supported_frameworks: ...]. *)
Fixpoint register_frameworks (attrs : list (string * ast)) (fws : list Framework)
  : result (list (string * ast)) :=
  match fws with
  | [] => Ok attrs
  | fw :: rest =>
      match register_attrs attrs (fw_attrs fw) with
      | Err e => Err e
      | Ok attrs' => register_frameworks attrs' rest
      end
  end.

(** [Worker.__init__(id, debug, supported_frameworks)]: a fresh empty store,
    an empty [Globals()], the frameworks registered one name at a time, the
    shared router bound, and a [WorkerStats()] when [debug] is set. *)
Definition Worker_init (id : string) (debug : bool) (supported_frameworks : list Framework)
  : result Worker :=
  match register_frameworks [] supported_frameworks with
  | Err e => Err e
  | Ok attrs =>
      Ok {| w_id := id;
            w_store := mkObjectStore [];
            w_frameworks := attrs;
            w_msg_router := message_service_mapping;
            w_worker_stats := if debug then Some mkWorkerStats else None |}
  end.

(** [syft.core.message] requests. *)
Inductive SyftMessage : Type :=
| SaveObjectMessage (uid : UID) (obj : pyval)
| GetObjectMessage (uid : UID)
| DeleteObjectMessage (uid : UID)
| RunClassMethodMessage (uid : UID) (method_name : string) (args : list pyval)
| RunFunctionOrConstructorMessage (path : string) (args : list pyval).

(** [Worker.recv_msg]: the body is [pass]; the worker is threaded through
    unchanged and the call returns [None]. *)
Definition recv_msg (self : Worker) (msg : SyftMessage) : Worker * pyval :=
  (self, PNone).

Definition msg_kind_of (msg : SyftMessage) : msg_kind :=
  match msg with
  | SaveObjectMessage _ _ => KSaveObject
  | GetObjectMessage _ => KGetObject
  | DeleteObjectMessage _ => KDeleteObject
  | RunClassMethodMessage _ _ _ => KRunClassMethod
  | RunFunctionOrConstructorMessage _ _ => KRunFunctionOrConstructor
  end.

(** Modelled from the spec: the [WorkerSupervisor] metaclass
    (supervisor/supervisor.py, not among the sources) that instruments
    [recv_msg]. Per spec 4.5 and 6, when [debug] is set every dispatch
    reports (message kind, success/failure, elapsed time) to the collector,
    without altering the dispatch itself. [elapsed] is the time measured
    for this call; the [pass] body always completes, so the call is a
    success. *)
Definition supervised_recv_msg (elapsed : Z) (self : Worker) (msg : SyftMessage)
  : Worker * pyval :=
  let '(w, r) := recv_msg self msg in
  match w_worker_stats w with
  | None => (w, r)
  | Some st =>
      (mkWorker (w_id w) (w_store w) (w_frameworks w) (w_msg_router w)
         (Some (mkStats (stats_log st ++ [mkStatsEntry (msg_kind_of msg) true elapsed]))),
       r)
  end.

(** Feeding messages to the instrumented [recv_msg] one after the other;
    [elapsed k] is the time measured for the [k]-th call. *)
Fixpoint recv_all (elapsed : nat -> Z) (k : nat) (w : Worker) (msgs : list SyftMessage)
  : Worker * list pyval :=
  match msgs with
  | [] => (w, [])
  | m :: rest =>
      let '(w', r) := supervised_recv_msg (elapsed k) w m in
      let '(w'', rs) := recv_all elapsed (S k) w' rest in
      (w'', r :: rs)
  end.

(** [Worker._send_msg] / [Worker._recv_msg]: [raise NotImplementedError]. *)
Definition _send_msg (self : Worker) : result unit := Err NotImplementedError.
Definition _recv_msg (self : Worker) : result unit := Err NotImplementedError.

(** [Worker.__repr__]: [if self.worker_stats:] the id and the collector on
    two lines, else ["Worker id:" + id].  [WorkerStats] is defined outside
    these files: its truth value and its [str] are parameters. *)
Definition newline : string := String (Ascii.ascii_of_nat 10) EmptyString.

Definition Worker_repr (stats_truthy : WorkerStats -> bool) (stats_str : WorkerStats -> string)
    (self : Worker) : string :=
  match w_worker_stats self with
  | Some st =>
      if stats_truthy st
      then String.append "Worker: " (String.append (w_id self) (String.append newline (stats_str st)))
      else String.append "Worker id:" (w_id self)
  | None => String.append "Worker id:" (w_id self)
  end.

(** ** Fresh identifiers: [UID.__init__] and [uuid.uuid4] *)

Definition uuid_msg_int_range : string := "int is out of range (need a 128-bit value)".
Definition uuid_msg_version : string := "illegal version number".

(** [uuid.UUID(bytes=b, version=version)]: the length check, [int.from_bytes],
    the 128-bit range check, then the RFC 4122 variant and version bits:
    [int &= ~(0xc000 << 48)]; [int |= 0x8000 << 48];
    [int &= ~(0xf000 << 64)]; [int |= version << 76]. *)
Definition UUID_of_bytes_version (b : list byte) (version : Z) : result UUID :=
  if negb (Nat.eqb (List.length b) 16) then Err (ValueError uuid_msg_bad_length) else
  let i := int_from_bytes_be b in
  if negb ((0 <=? i) && (i <? 2 ^ 128))%bool then Err (ValueError uuid_msg_int_range) else
  if negb ((1 <=? version) && (version <=? 5))%bool then Err (ValueError uuid_msg_version) else
  let i := Z.land i (Z.lnot (Z.shiftl 0xc000 48)) in
  let i := Z.lor i (Z.shiftl 0x8000 48) in
  let i := Z.land i (Z.lnot (Z.shiftl 0xf000 64)) in
  let i := Z.lor i (Z.shiftl version 76) in
  Ok (mkUUID i).

(** [uuid.uuid4()]: [UUID(bytes=os.urandom(16), version=4)]; the bytes
    [os.urandom(16)] returned are the argument. *)
Definition uuid4 (urandom16 : list byte) : result UUID := UUID_of_bytes_version urandom16 4.

(** [UUID.variant]. *)
Inductive uuid_variant_kind : Type :=
| RESERVED_NCS | RFC_4122 | RESERVED_MICROSOFT | RESERVED_FUTURE.

Definition uuid_variant (u : UUID) : uuid_variant_kind :=
  let i := uuid_int u in
  if Z.eqb (Z.land i (Z.shiftl 0x8000 48)) 0 then RESERVED_NCS
  else if Z.eqb (Z.land i (Z.shiftl 0x4000 48)) 0 then RFC_4122
  else if Z.eqb (Z.land i (Z.shiftl 0x2000 48)) 0 then RESERVED_MICROSOFT
  else RESERVED_FUTURE.

(** [UUID.version]: [(self.int >> 76) & 0xf] for RFC 4122 UUIDs, else [None]. *)
Definition uuid_version (u : UUID) : option Z :=
  match uuid_variant u with
  | RFC_4122 => Some (Z.land (Z.shiftr (uuid_int u) 76) 0xf)
  | _ => None
  end.

(** [UID.__init__(value=None, as_wrapper=False)]: with no [value] a fresh
    [uuid.uuid4()] is drawn (from the bytes [urandom16]); the value and the
    flag are stored. *)
Definition UID_init (value : option UUID) (as_wrapper : bool) (urandom16 : list byte)
  : result UID :=
  match value with
  | Some v => Ok (mkUID v as_wrapper)
  | None =>
      match uuid4 urandom16 with
      | Err e => Err e
      | Ok v => Ok (mkUID v as_wrapper)
      end
  end.

(** The integer [uuid.UUID(..., version=4)] computes from [x]. *)
Definition set_version4 (x : Z) : Z :=
  Z.lor (Z.land (Z.lor (Z.land x (Z.lnot (Z.shiftl 0xc000 48))) (Z.shiftl 0x8000 48))
                (Z.lnot (Z.shiftl 0xf000 64))) (Z.shiftl 4 76).

(** ** [UID.__repr__] and [UUID.__str__] *)

Definition hex_alphabet : string := "0123456789abcdef".

(** The hex digit of [d], [0 <= d < 16]. *)
Definition hex_char (d : Z) : ascii :=
  match String.get (Z.to_nat d) hex_alphabet with Some c => c | None => "0"%char end.

(** Position of [c] in [s], counted from [k]: the inverse of [hex_char]. *)
Fixpoint str_index (c : ascii) (s : string) (k : Z) : Z :=
  match s with
  | EmptyString => k
  | String c' s' => if Ascii.eqb c c' then k else str_index c s' (k + 1)
  end.

Definition hex_val (c : ascii) : Z := str_index c hex_alphabet 0.

(** Base-16 digits of [i], least significant first, [n] of them. *)
Fixpoint le_nibbles (n : nat) (i : Z) : list Z :=
  match n with
  | O => []
  | S n' => i mod 16 :: le_nibbles n' (i / 16)
  end.

(** ['%x' % i] for [i >= 0] (a UUID's [int]): its lowercase hex digits,
    most significant first, without leading zeros; ["0"] for zero. *)
Definition format_x (i : Z) : list ascii :=
  if Z.eqb i 0 then ["0"%char]
  else map hex_char (rev (le_nibbles (Z.to_nat (Z.log2 i / 4 + 1)) i)).

(** ['%032x' % i]: the digits left-padded with ['0'] to width 32. *)
Definition format_032x (i : Z) : list ascii :=
  let d := format_x i in repeat "0"%char (32 - List.length d) ++ d.

(** ['%s-%s-%s-%s-%s' % (hex[:8], hex[8:12], hex[12:16], hex[16:20], hex[20:])]. *)
Definition dash_hex (hex : list ascii) : list ascii :=
  firstn 8 hex ++ ["-"%char] ++ firstn 4 (skipn 8 hex) ++ ["-"%char] ++
  firstn 4 (skipn 12 hex) ++ ["-"%char] ++ firstn 4 (skipn 16 hex) ++ ["-"%char] ++
  skipn 20 hex.

(** [UUID.__str__]: [hex = '%032x' % self.int], then dashed. *)
Definition uuid_str (u : UUID) : list ascii := dash_hex (format_032x (uuid_int u)).

(** [UID.__repr__]: [f"<UID:{self.value}>"]. *)
Definition uid_repr (u : UID) : list ascii :=
  list_ascii_of_string "<UID:" ++ uuid_str (uid_value u) ++ [">"%char].

(** ** Concrete inputs *)

Definition uuid_U : UUID := mkUUID 42424242.
Definition uid_U : UID := mkUID uuid_U false.

Definition scenario_msgs (U : UID) : list SyftMessage :=
  [SaveObjectMessage U (PInt 42); GetObjectMessage U;
   DeleteObjectMessage U; GetObjectMessage U].

Definition fw_a : Framework := mkFramework [("torch", AstNode "torch")].
Definition fw_b : Framework :=
  mkFramework [("numpy", AstNode "numpy"); ("torch", AstNode "torch2")].


Definition short_proto : ProtoUID := mkProtoUID uid_obj_type [x01; x02; x03] false.

Definition proto16 : ProtoUID :=
  mkProtoUID uid_obj_type
    [x00; x11; x22; x33; x44; x55; x66; x77; x88; x99; xaa; xbb; xcc; xdd; xee; xff] false.

Definition proto16_wrapped : ProtoUID :=
  mkProtoUID uid_obj_type (proto_value proto16) true.

(** The names the frameworks register, in the order the loops visit them. *)
Definition fw_names (fws : list Framework) : list string :=
  flat_map (fun fw => map fst (fw_attrs fw)) fws.

Example le_bytes_ex : int_from_bytes_be (uuid_bytes uuid_U) = 42424242.
Proof. vm_compute. reflexivity. Qed.

(** ** The byte codec of [uuid] *)

Section ByteCodec.

Lemma mod_mul_pos (a b c : Z) : 0 <= a -> 0 < b -> 0 < c ->
  a mod (b * c) = a mod b + b * ((a / b) mod c).
Proof.
  intros Ha Hb Hc.
  rewrite <- !Z.rem_mod_nonneg, <- Z.quot_div_nonneg by (try apply Z.div_pos; lia).
  apply Z.mod_mul_r; lia.
Qed.

Lemma byte_to_of_Z (z : Z) : 0 <= z < 256 -> byte_to_Z (byte_of_Z z) = z.
Proof.
  intros Hz. unfold byte_of_Z, byte_to_Z.
  destruct (Byte.of_N (Z.to_N z)) as [b|] eqn:E.
  - apply Byte.to_of_N in E. rewrite E. apply Z2N.id. lia.
  - apply Byte.of_N_None_iff in E. lia.
Qed.

Lemma le_bytes_length (n : nat) (i : Z) : List.length (le_bytes n i) = n.
Proof.
  revert i. induction n as [|n IH]; intros i; simpl; [reflexivity | now rewrite IH].
Qed.

(** Reading big-endian bytes back is the little-endian sum of the reversal. *)
Lemma int_from_bytes_be_rev (l : list byte) :
  int_from_bytes_be (rev l) = fold_right (fun x acc => byte_to_Z x + 256 * acc) 0 l.
Proof.
  unfold int_from_bytes_be. induction l as [|x l IH]; cbn [rev fold_right]; [reflexivity|].
  rewrite fold_left_app. cbn [fold_left]. rewrite IH. ring.
Qed.

Lemma le_bytes_value (n : nat) (i : Z) : 0 <= i ->
  fold_right (fun x acc => byte_to_Z x + 256 * acc) 0 (le_bytes n i)
  = i mod 256 ^ Z.of_nat n.
Proof.
  revert i. induction n as [|n IH]; intros i Hi; cbn [le_bytes fold_right].
  - now rewrite Z.mod_1_r.
  - rewrite IH by (apply Z.div_pos; lia).
    rewrite byte_to_of_Z by (apply Z.mod_pos_bound; lia).
    rewrite Nat2Z.inj_succ, Z.pow_succ_r by lia.
    rewrite mod_mul_pos; try lia.
Qed.

(** [uuid.UUID(bytes=u.bytes)] rebuilds [u]. *)
Lemma UUID_of_bytes_uuid_bytes (u : UUID) : uuid_wf u -> UUID_of_bytes (uuid_bytes u) = Ok u.
Proof.
  destruct u as [i]. unfold uuid_wf, UUID_of_bytes, uuid_bytes, int_to_bytes_be. cbn [uuid_int].
  intros Hi. rewrite length_rev, le_bytes_length. cbn [Nat.eqb].
  rewrite int_from_bytes_be_rev, le_bytes_value by lia.
  rewrite Z.mod_small; [reflexivity|]. change (256 ^ Z.of_nat 16) with (2 ^ 128). lia.
Qed.

End ByteCodec.

(** ** Framework registration *)

Section Registration.

Lemma attrs_mem_In (name : string) (attrs : list (string * ast)) :
  attrs_mem name attrs = true <-> In name (map fst attrs).
Proof.
  unfold attrs_mem. rewrite existsb_exists, in_map_iff. split.
  - intros [p [Hp Heq]]. apply String.eqb_eq in Heq. eauto.
  - intros [p [Heq Hp]]. exists p. split; [assumption|]. now apply String.eqb_eq.
Qed.

Lemma names_snoc (acc rest : list (string * ast)) (name : string) (a : ast) :
  map fst (acc ++ [(name, a)]) ++ map fst rest = map fst acc ++ name :: map fst rest.
Proof. rewrite map_app, <- app_assoc. reflexivity. Qed.

Lemma register_attrs_ok (items acc : list (string * ast)) :
  NoDup (map fst acc ++ map fst items) -> register_attrs acc items = Ok (acc ++ items).
Proof.
  revert acc. induction items as [|[name a] rest IH]; intros acc Hnd; simpl.
  - now rewrite app_nil_r.
  - destruct (attrs_mem name acc) eqn:Hm.
    + apply attrs_mem_In in Hm. simpl in Hnd.
      exfalso. apply (NoDup_remove_2 _ _ _ Hnd). apply in_or_app. now left.
    + rewrite IH.
      * now rewrite <- app_assoc.
      * now rewrite names_snoc.
Qed.

Lemma register_attrs_dup (items acc : list (string * ast)) :
  NoDup (map fst acc) -> ~ NoDup (map fst acc ++ map fst items) ->
  register_attrs acc items = Err (KeyError dup_framework_msg).
Proof.
  revert acc. induction items as [|[name a] rest IH]; intros acc Hacc Hnd; simpl.
  - simpl in Hnd. rewrite app_nil_r in Hnd. contradiction.
  - destruct (attrs_mem name acc) eqn:Hm; [reflexivity|].
    apply IH.
    + rewrite map_app. simpl. apply NoDup_app; [assumption | constructor; [easy | constructor]|].
      intros x Hx [Hy|[]]; subst. apply (proj2 (Bool.not_true_iff_false _) Hm).
      now apply attrs_mem_In.
    + now rewrite names_snoc.
Qed.

Lemma register_frameworks_ok (fws : list Framework) (acc : list (string * ast)) :
  NoDup (map fst acc ++ fw_names fws) ->
  register_frameworks acc fws = Ok (acc ++ List.concat (map fw_attrs fws)).
Proof.
  revert acc. induction fws as [|fw rest IH]; intros acc Hnd; simpl.
  - now rewrite app_nil_r.
  - simpl in Hnd. rewrite app_assoc in Hnd.
    rewrite register_attrs_ok by (eapply NoDup_app_remove_r; eassumption).
    rewrite IH, app_assoc; [reflexivity|]. now rewrite map_app.
Qed.

Lemma register_frameworks_dup (fws : list Framework) (acc : list (string * ast)) :
  NoDup (map fst acc) -> ~ NoDup (map fst acc ++ fw_names fws) ->
  register_frameworks acc fws = Err (KeyError dup_framework_msg).
Proof.
  revert acc. induction fws as [|fw rest IH]; intros acc Hacc Hnd; simpl.
  - simpl in Hnd. rewrite app_nil_r in Hnd. contradiction.
  - simpl in Hnd. rewrite app_assoc in Hnd.
    destruct (NoDup_dec String.string_dec (map fst acc ++ map fst (fw_attrs fw))) as [Hok|Hko].
    + rewrite register_attrs_ok by assumption.
      apply IH; rewrite map_app; assumption.
    + now rewrite register_attrs_dup.
Qed.

End Registration.

(** ** Claims *)

(** C1 (as stated, refuted): in the scenario, [recv_msg(GetObject{uid=U})]
    after [recv_msg(SaveObject{uid=U, object=42})] does not return [42]. *)
Lemma C1_scenario_get_not_42 :
  exists w, Worker_init "node-a" false [] = Ok w /\
            nth 1 (snd (recv_all (fun _ => 1) 0 w (scenario_msgs uid_U))) PNone <> PInt 42.
Proof.
  eexists. split; [reflexivity|]. simpl. discriminate.
Qed.

(** C1 (amended): for every UID [U] (and whatever times the calls take), a
    Worker built with id "node-a", no frameworks and debug off answers each
    of SaveObject{U, 42}, GetObject{U}, DeleteObject{U}, GetObject{U} with
    [None] and ends exactly as it was built, its object store still empty. *)
Theorem C1_scenario_recv_msg_returns_None (U : UID) (elapsed : nat -> Z) :
  exists w, Worker_init "node-a" false [] = Ok w /\
            store_objects (w_store w) = [] /\
            recv_all elapsed 0 w (scenario_msgs U) = (w, [PNone; PNone; PNone; PNone]).
Proof.
  eexists. split; [reflexivity|]. split; reflexivity.
Qed.

(** C2: for a UID whose [as_wrapper] is false, [_proto2object] applied to
    [_object2proto u] gives back [u] itself: the same 128-bit value and the
    same flag. *)
Theorem C2_uid_roundtrip (u : UID) (Hwf : uid_wf u) (Hw : uid_as_wrapper u = false) :
  _proto2object (_object2proto u) = Ok (DomainUID u).
Proof.
  destruct u as [v w]. unfold uid_wf in Hwf. cbn in Hw, Hwf. subst w.
  unfold _proto2object, _object2proto. cbn [proto_value proto_as_wrapper uid_value uid_as_wrapper].
  rewrite UUID_of_bytes_uuid_bytes by assumption. reflexivity.
Qed.

Lemma C2_uid_roundtrip_witness :
  uid_wf uid_U /\ uid_as_wrapper uid_U = false /\
  _proto2object (_object2proto uid_U) = Ok (DomainUID uid_U).
Proof.
  assert (H : uid_wf uid_U) by (unfold uid_wf, uuid_wf; simpl; lia).
  split; [exact H|]. split; [reflexivity|].
  apply (C2_uid_roundtrip uid_U H). reflexivity.
Defined.

(** C3 (code bug): comparing a UID with a value that is not a UID falls off
    the end of [UID.__eq__], which returns [None], not [False]. *)
Theorem C3_uid_eq_non_uid_returns_None (a : UID) (z : Z) :
  uid_eq a (PInt z) = None.
Proof. reflexivity. Qed.

(** C4 (as stated, refuted): two frameworks both registering "torch" make
    the constructor raise [KeyError], not a dedicated duplicate-framework
    error. *)
Lemma C4_duplicate_raises_KeyError :
  Worker_init "node-a" false [fw_a; fw_b] = Err (KeyError dup_framework_msg).
Proof. reflexivity. Qed.

(** C4 (amended): construction raises [KeyError("Framework already
    imported. Why are you importing it twice?")], so no Worker is produced,
    exactly when a name repeats among the frameworks' attribute names;
    otherwise every name is registered with its ast, in order, with no
    overwrite. *)
Theorem C4_duplicate_framework_KeyError (id : string) (debug : bool) (fws : list Framework) :
  (Worker_init id debug fws = Err (KeyError dup_framework_msg) <-> ~ NoDup (fw_names fws)) /\
  (NoDup (fw_names fws) ->
   exists w, Worker_init id debug fws = Ok w /\
             w_frameworks w = List.concat (map fw_attrs fws)).
Proof.
  unfold Worker_init.
  destruct (NoDup_dec String.string_dec (fw_names fws)) as [Hnd|Hnd].
  - rewrite (register_frameworks_ok fws []) by exact Hnd. split.
    + split; [discriminate | contradiction].
    + intros _. eexists. split; reflexivity.
  - rewrite (register_frameworks_dup fws []) by (simpl; first [constructor | assumption]).
    split; [tauto | contradiction].
Qed.

(** C5: serialising a UID and reading it back gives the raw UUID when its
    [as_wrapper] flag was set, and a domain UID with the same value
    otherwise. *)
Theorem C5_as_wrapper_dual_return (u : UID) (Hwf : uid_wf u) :
  _proto2object (_object2proto u) =
  Ok (if uid_as_wrapper u then RawUUID (uid_value u)
      else DomainUID (mkUID (uid_value u) false)).
Proof.
  unfold _proto2object, _object2proto. cbn [proto_value proto_as_wrapper].
  rewrite UUID_of_bytes_uuid_bytes by exact Hwf. now destruct (uid_as_wrapper u).
Qed.

Lemma C5_as_wrapper_dual_return_witness :
  _proto2object (_object2proto (mkUID uuid_U true)) = Ok (RawUUID uuid_U).
Proof.
  apply (C5_as_wrapper_dual_return (mkUID uuid_U true)).
  unfold uid_wf, uuid_wf; simpl; lia.
Defined.

(** C6: equal UIDs hash identically. *)
Theorem C6_eq_implies_hash_eq (a b : UID) (Heq : uid_eq a (PUIDv b) = Some true) :
  uid_hash a = uid_hash b.
Proof.
  unfold uid_eq, uuid_eqb in Heq. injection Heq as Heq.
  apply Z.eqb_eq in Heq. exact Heq.
Qed.

Lemma C6_eq_implies_hash_eq_witness : uid_hash uid_U = uid_hash (mkUID uuid_U true).
Proof. apply C6_eq_implies_hash_eq. reflexivity. Defined.

(** C7 (as stated, refuted): three bytes make [_proto2object] raise the
    [ValueError] of [uuid.UUID], not a dedicated identifier error. *)
Lemma C7_short_bytes_ValueError :
  _proto2object short_proto = Err (ValueError uuid_msg_bad_length).
Proof. reflexivity. Qed.

(** C7 (amended): [_proto2object] raises [ValueError("bytes is not a
    16-char string")] from [uuid.UUID] whenever the value is not exactly 16
    bytes, and succeeds on every 16-byte value. *)
Theorem C7_bad_length_ValueError (p : ProtoUID) :
  (List.length (proto_value p) <> 16%nat ->
   _proto2object p = Err (ValueError uuid_msg_bad_length)) /\
  (List.length (proto_value p) = 16%nat -> exists d, _proto2object p = Ok d).
Proof.
  unfold _proto2object, UUID_of_bytes. split.
  - intros Hl. apply Nat.eqb_neq in Hl. now rewrite Hl.
  - intros Hl. rewrite Hl. simpl. now destruct (proto_as_wrapper p); eexists.
Qed.

(** C8: the base transport methods always raise [NotImplementedError]. *)
Theorem C8_transport_not_implemented (w : Worker) :
  _send_msg w = Err NotImplementedError /\ _recv_msg w = Err NotImplementedError.
Proof. split; reflexivity. Qed.

(** C9 (as stated, refuted): on a Worker built with debug on, a call of the
    instrumented [recv_msg] changes the Worker: its collector logs the call. *)
Lemma C9_debug_collector_changes :
  exists w, Worker_init "node-a" true [] = Ok w /\
            fst (supervised_recv_msg 5 w (GetObjectMessage uid_U)) <> w.
Proof.
  eexists. split; [reflexivity|]. cbn. discriminate.
Qed.

(** C9 (amended): every call of [recv_msg] returns [None] and leaves the
    id, the object store, the frameworks and the router as they were. With
    no statistics collector (debug off) the Worker is entirely unchanged;
    with one, the collector gains exactly one successful entry for the
    message's kind and the measured time. *)
Theorem C9_recv_msg_frame (elapsed : Z) (w : Worker) (m : SyftMessage) :
  let '(w', r) := supervised_recv_msg elapsed w m in
  r = PNone /\ w_id w' = w_id w /\ w_store w' = w_store w /\
  w_frameworks w' = w_frameworks w /\ w_msg_router w' = w_msg_router w /\
  w_worker_stats w' =
    match w_worker_stats w with
    | None => None
    | Some st => Some (mkStats (stats_log st ++ [mkStatsEntry (msg_kind_of m) true elapsed]))
    end /\
  (w_worker_stats w = None -> w' = w).
Proof.
  unfold supervised_recv_msg, recv_msg.
  destruct (w_worker_stats w) as [st|] eqn:Hs; cbn.
  - repeat split. discriminate.
  - repeat split. exact Hs.
Qed.

(** C10: [UID.__hash__] is the full 128-bit integer, so equal hashes mean
    equal UUID values. *)
Theorem C10_hash_injective (a b : UID) (Hh : uid_hash a = uid_hash b) :
  uid_value a = uid_value b.
Proof.
  destruct a as [[ia] wa], b as [[ib] wb]. unfold uid_hash in Hh. simpl in *. now subst.
Qed.

Lemma C10_hash_injective_witness : uid_value uid_U = uid_value (mkUID uuid_U true).
Proof. apply C10_hash_injective. reflexivity. Defined.

(** ** Further properties of the embedded code *)

Section ByteDecode.

Lemma byte_of_to_Z (b : byte) : byte_of_Z (byte_to_Z b) = b.
Proof.
  unfold byte_of_Z, byte_to_Z. rewrite N2Z.id, Byte.of_to_N. reflexivity.
Qed.

Lemma byte_to_Z_bound (b : byte) : 0 <= byte_to_Z b < 256.
Proof.
  unfold byte_to_Z. pose proof (Byte.to_N_bounded b). lia.
Qed.

Lemma le_value_bound (l : list byte) :
  0 <= fold_right (fun x acc => byte_to_Z x + 256 * acc) 0 l < 256 ^ Z.of_nat (List.length l).
Proof.
  induction l as [|x l IH]; cbn [fold_right List.length]; [simpl; lia|].
  rewrite Nat2Z.inj_succ, Z.pow_succ_r by lia. pose proof (byte_to_Z_bound x). nia.
Qed.

(** Encoding the little-endian value of [l] on [length l] bytes gives [l]. *)
Lemma le_bytes_of_value (l : list byte) :
  le_bytes (List.length l) (fold_right (fun x acc => byte_to_Z x + 256 * acc) 0 l) = l.
Proof.
  induction l as [|x l IH]; cbn [fold_right List.length le_bytes]; [reflexivity|].
  pose proof (byte_to_Z_bound x). pose proof (le_value_bound l).
  set (r := fold_right _ 0 l) in *.
  rewrite (Z.mul_comm 256 r), Z.mod_add, Z.div_add, Z.mod_small, Z.div_small by lia.
  rewrite byte_of_to_Z, Z.add_0_l, IH. reflexivity.
Qed.

(** Sixteen bytes read by [uuid.UUID(bytes=...)] are given back by [.bytes]. *)
Lemma uuid_bytes_of_bytes (b : list byte) : List.length b = 16%nat ->
  uuid_bytes (mkUUID (int_from_bytes_be b)) = b /\ uuid_wf (mkUUID (int_from_bytes_be b)).
Proof.
  intros Hl. unfold uuid_bytes, uuid_wf, int_to_bytes_be. cbn [uuid_int].
  rewrite <- (rev_involutive b), int_from_bytes_be_rev.
  pose proof (le_value_bound (rev b)) as Hb. rewrite length_rev, Hl in Hb.
  split; [|change (256 ^ Z.of_nat 16) with (2 ^ 128) in Hb; lia].
  rewrite <- Hl, <- (length_rev b), le_bytes_of_value. reflexivity.
Qed.

End ByteDecode.

(** [UID.__eq__] restricted to UIDs is an equivalence relation. *)
Theorem uid_eq_equivalence :
  (forall a, uid_eq a (PUIDv a) = Some true) /\
  (forall a b, uid_eq a (PUIDv b) = uid_eq b (PUIDv a)) /\
  (forall a b c, uid_eq a (PUIDv b) = Some true -> uid_eq b (PUIDv c) = Some true ->
                 uid_eq a (PUIDv c) = Some true).
Proof.
  unfold uid_eq, uuid_eqb. split; [|split].
  - intros a. now rewrite Z.eqb_refl.
  - intros a b. now rewrite Z.eqb_sym.
  - intros a b c H1 H2. injection H1 as H1. injection H2 as H2.
    apply Z.eqb_eq in H1, H2. rewrite H1, H2, Z.eqb_refl. reflexivity.
Qed.

(** [_object2proto] always writes exactly 16 bytes, so reading back what it
    produced never raises, whatever the UID. *)
Theorem object2proto_never_fails (u : UID) :
  List.length (proto_value (_object2proto u)) = 16%nat /\
  exists d, _proto2object (_object2proto u) = Ok d.
Proof.
  unfold _object2proto, _proto2object, UUID_of_bytes, uuid_bytes, int_to_bytes_be.
  cbn [proto_value proto_as_wrapper]. rewrite length_rev, le_bytes_length.
  split; [reflexivity|]. cbn [Nat.eqb]. destruct (uid_as_wrapper u); eexists; reflexivity.
Qed.

(** A UID proto with 16 bytes and [as_wrapper] unset is read as a UID that
    [_object2proto] turns back into the very same proto. *)
Theorem proto2object_object2proto (p : ProtoUID)
    (Hl : List.length (proto_value p) = 16%nat)
    (Ht : proto_obj_type p = uid_obj_type) (Hw : proto_as_wrapper p = false) :
  exists u, _proto2object p = Ok (DomainUID u) /\ _object2proto u = p.
Proof.
  destruct p as [t v w]. cbn in Hl, Ht, Hw. subst t w.
  unfold _proto2object, UUID_of_bytes. cbn [proto_value proto_as_wrapper].
  rewrite Hl. cbn [Nat.eqb]. eexists. split; [reflexivity|].
  unfold _object2proto. cbn [uid_value uid_as_wrapper].
  now rewrite (proj1 (uuid_bytes_of_bytes v Hl)).
Qed.

Lemma proto2object_object2proto_witness :
  exists u, _proto2object proto16 = Ok (DomainUID u) /\ _object2proto u = proto16.
Proof. apply proto2object_object2proto; reflexivity. Defined.

(** With [as_wrapper] set, a 16-byte proto is read as the raw UUID, whose
    [.bytes] are the proto's bytes. *)
Theorem proto2object_wrapper_raw (p : ProtoUID)
    (Hl : List.length (proto_value p) = 16%nat) (Hw : proto_as_wrapper p = true) :
  exists v, _proto2object p = Ok (RawUUID v) /\ uuid_bytes v = proto_value p.
Proof.
  unfold _proto2object, UUID_of_bytes. rewrite Hl, Hw. cbn [Nat.eqb].
  eexists. split; [reflexivity|]. exact (proj1 (uuid_bytes_of_bytes _ Hl)).
Qed.

Lemma proto2object_wrapper_raw_witness :
  exists v, _proto2object proto16_wrapped = Ok (RawUUID v) /\
            uuid_bytes v = proto_value proto16_wrapped.
Proof. apply (proto2object_wrapper_raw proto16_wrapped); reflexivity. Defined.

(** Whatever [_proto2object] returns holds a 128-bit value; a domain UID
    it builds always has [as_wrapper] unset. *)
Theorem proto2object_result_wf (p : ProtoUID) (d : deserialized)
    (H : _proto2object p = Ok d) :
  match d with
  | RawUUID v => uuid_wf v
  | DomainUID u => uid_wf u /\ uid_as_wrapper u = false
  end.
Proof.
  unfold _proto2object, UUID_of_bytes in H.
  destruct (Nat.eqb (List.length (proto_value p)) 16) eqn:Hl; [|discriminate].
  apply Nat.eqb_eq in Hl. pose proof (proj2 (uuid_bytes_of_bytes _ Hl)) as Hwf.
  destruct (proto_as_wrapper p); injection H as <-; [exact Hwf | split; [exact Hwf | reflexivity]].
Qed.

Lemma proto2object_result_wf_witness : uid_wf (mkUID (mkUUID (int_from_bytes_be (proto_value proto16))) false)
  /\ uid_as_wrapper (mkUID (mkUUID (int_from_bytes_be (proto_value proto16))) false) = false.
Proof. exact (proto2object_result_wf proto16 _ eq_refl). Defined.

(** A constructed Worker keeps the given id, starts with an empty object
    store, has a statistics collector exactly when [debug] is set, and has
    no framework name registered twice. *)
Theorem Worker_init_ok_state (id : string) (debug : bool) (fws : list Framework) (w : Worker)
    (H : Worker_init id debug fws = Ok w) :
  w_id w = id /\ store_objects (w_store w) = [] /\
  (w_worker_stats w = None <-> debug = false) /\
  NoDup (map fst (w_frameworks w)) /\
  w_frameworks w = List.concat (map fw_attrs fws).
Proof.
  unfold Worker_init in H.
  destruct (NoDup_dec String.string_dec (fw_names fws)) as [Hnd|Hnd].
  - rewrite (register_frameworks_ok fws []) in H by exact Hnd.
    injection H as <-. cbn. split; [reflexivity|]. split; [reflexivity|]. split.
    + destruct debug; split; congruence.
    + split; [|reflexivity].
      unfold fw_names in Hnd. rewrite flat_map_concat_map in Hnd.
      rewrite concat_map, map_map. exact Hnd.
  - rewrite (register_frameworks_dup fws []) in H by (simpl; first [constructor | assumption]).
    discriminate.
Qed.

Lemma Worker_init_ok_state_witness :
  exists w, Worker_init "node-a" true [fw_a] = Ok w /\ w_worker_stats w <> None /\
            NoDup (map fst (w_frameworks w)).
Proof.
  eexists. split; [reflexivity|].
  destruct (Worker_init_ok_state "node-a" true [fw_a] _ eq_refl) as [_ [_ [Hs [Hnd _]]]].
  split; [|exact Hnd]. intros Hn. apply Hs in Hn. discriminate.
Defined.

(** Whether construction succeeds depends on the frameworks only, never on
    the id or the debug flag. *)
Theorem Worker_init_success_independent (id id' : string) (debug debug' : bool)
    (fws : list Framework) :
  (exists w, Worker_init id debug fws = Ok w) <-> (exists w', Worker_init id' debug' fws = Ok w').
Proof.
  unfold Worker_init.
  destruct (register_frameworks [] fws); split; intros [w Hw]; try discriminate; eexists; reflexivity.
Qed.

Section UUIDBits.

Lemma testbit_high (a k n : Z) : 0 <= a < 2 ^ k -> 0 <= k <= n -> Z.testbit a n = false.
Proof.
  intros Ha Hk. destruct (Z.eq_dec a 0) as [->|Hnz]; [apply Z.testbit_0_l|].
  apply Z.bits_above_log2; [lia|].
  pose proof (proj1 (Z.log2_lt_pow2 a k ltac:(lia)) (proj2 Ha)). lia.
Qed.

Lemma bits_high_bound (a k : Z) : 0 <= a -> 0 <= k ->
  (forall n, k <= n -> Z.testbit a n = false) -> a < 2 ^ k.
Proof.
  intros Ha Hk Hb.
  assert (E : a mod 2 ^ k = a).
  { apply Z.bits_inj'; intros n Hn. rewrite Z.testbit_mod_pow2 by lia.
    destruct (Z.ltb_spec n k); [reflexivity|]. now rewrite Hb by lia. }
  rewrite <- E. apply Z.mod_pos_bound. lia.
Qed.

Lemma land_pow2 (a k : Z) : 0 <= k -> Z.land a (2 ^ k) = if Z.testbit a k then 2 ^ k else 0.
Proof.
  intros Hk. apply Z.bits_inj'; intros n Hn. rewrite Z.land_spec, Z.pow2_bits_eqb by lia.
  destruct (Z.eqb_spec k n) as [<-|Hne].
  - destruct (Z.testbit a k); [now rewrite Z.pow2_bits_eqb, Z.eqb_refl | now rewrite Z.testbit_0_l].
  - rewrite Bool.andb_false_r.
    destruct (Z.testbit a k); [rewrite Z.pow2_bits_eqb by lia; symmetry; now apply Z.eqb_neq
                              | now rewrite Z.testbit_0_l].
Qed.

Ltac bool_simpl :=
  cbn [negb]; rewrite ?Bool.andb_true_r, ?Bool.andb_false_r, ?Bool.orb_false_r,
    ?Bool.orb_true_r; reflexivity.

Lemma set_version4_version (x : Z) : Z.land (Z.shiftr (set_version4 x) 76) 15 = 4.
Proof.
  apply Z.bits_inj'; intros n Hn. unfold set_version4.
  rewrite Z.land_spec, Z.shiftr_spec by lia.
  destruct (Z.lt_ge_cases n 4) as [Hlt|Hge].
  - assert (n = 0 \/ n = 1 \/ n = 2 \/ n = 3) as Hc by lia.
    destruct Hc as [ -> | [ -> | [ -> | -> ]]];
      rewrite ?Z.lor_spec, ?Z.land_spec, ?Z.lnot_spec by lia;
      cbn -[Z.testbit]; simpl Z.testbit; bool_simpl.
  - rewrite (testbit_high 15 4 n), (testbit_high 4 4 n) by lia. apply Bool.andb_false_r.
Qed.

Lemma set_version4_variant_bits (x : Z) :
  Z.testbit (set_version4 x) 63 = true /\ Z.testbit (set_version4 x) 62 = false.
Proof.
  unfold set_version4. split;
    repeat rewrite ?Z.lor_spec, ?Z.land_spec, ?Z.lnot_spec by lia;
    cbn -[Z.testbit]; simpl Z.testbit; bool_simpl.
Qed.

Lemma set_version4_range (x : Z) : 0 <= x < 2 ^ 128 -> 0 <= set_version4 x < 2 ^ 128.
Proof.
  intros Hx.
  assert (H0 : 0 <= set_version4 x).
  { unfold set_version4. apply Z.lor_nonneg; split; [|rewrite Z.shiftl_mul_pow2; lia].
    apply Z.land_nonneg; left. apply Z.lor_nonneg; split; [|rewrite Z.shiftl_mul_pow2; lia].
    apply Z.land_nonneg; now left. }
  split; [exact H0|]. apply bits_high_bound; [exact H0 | lia |].
  intros n Hn. unfold set_version4.
  repeat rewrite ?Z.lor_spec, ?Z.land_spec. rewrite (testbit_high x 128 n) by lia.
  rewrite (testbit_high (Z.shiftl 0x8000 48) 128 n), (testbit_high (Z.shiftl 4 76) 128 n)
    by (try lia; rewrite Z.shiftl_mul_pow2 by lia; lia). reflexivity.
Qed.

Lemma uuid4_ok (b : list byte) : List.length b = 16%nat ->
  uuid4 b = Ok (mkUUID (set_version4 (int_from_bytes_be b))) /\
  0 <= int_from_bytes_be b < 2 ^ 128.
Proof.
  intros Hl. pose proof (proj2 (uuid_bytes_of_bytes b Hl)) as Hr. unfold uuid_wf in Hr.
  cbn [uuid_int] in Hr. split; [|exact Hr].
  unfold uuid4, UUID_of_bytes_version. rewrite Hl. cbn [Nat.eqb negb].
  destruct Hr as [Hr1 Hr2]. apply Z.leb_le in Hr1. apply Z.ltb_lt in Hr2.
  rewrite Hr1, Hr2. reflexivity.
Qed.

End UUIDBits.

(** A fresh [UID()] (no value given) draws a well-formed 128-bit value that
    is an RFC 4122 version-4 UUID, keeps the [as_wrapper] flag it was given,
    and, with that flag unset, survives [_object2proto] / [_proto2object]
    unchanged. *)
Theorem UID_init_fresh (urandom16 : list byte) (as_wrapper : bool)
    (Hl : List.length urandom16 = 16%nat) :
  exists u, UID_init None as_wrapper urandom16 = Ok u /\
            uid_as_wrapper u = as_wrapper /\ uid_wf u /\
            uuid_variant (uid_value u) = RFC_4122 /\
            uuid_version (uid_value u) = Some 4 /\
            (as_wrapper = false -> _proto2object (_object2proto u) = Ok (DomainUID u)).
Proof.
  destruct (uuid4_ok urandom16 Hl) as [H4 Hr].
  unfold UID_init. rewrite H4. eexists. split; [reflexivity|]. cbn [uid_as_wrapper uid_value].
  set (x := int_from_bytes_be urandom16) in *.
  assert (Hwf : uuid_wf (mkUUID (set_version4 x))) by (apply set_version4_range; exact Hr).
  destruct (set_version4_variant_bits x) as [H63 H62].
  assert (Hv : uuid_variant (mkUUID (set_version4 x)) = RFC_4122).
  { unfold uuid_variant. cbn [uuid_int].
    change (Z.shiftl 0x8000 48) with (2 ^ 63). change (Z.shiftl 0x4000 48) with (2 ^ 62).
    rewrite !land_pow2, H63, H62 by lia. reflexivity. }
  split; [reflexivity|]. split; [exact Hwf|]. split; [exact Hv|]. split.
  - unfold uuid_version. rewrite Hv. cbn [uuid_int]. now rewrite set_version4_version.
  - intros ->. unfold _proto2object, _object2proto. cbn [proto_value proto_as_wrapper uid_value uid_as_wrapper].
    rewrite UUID_of_bytes_uuid_bytes by exact Hwf. reflexivity.
Qed.

Lemma UID_init_fresh_witness :
  exists u, UID_init None false (proto_value proto16) = Ok u /\
            uuid_version (uid_value u) = Some 4.
Proof.
  destruct (UID_init_fresh (proto_value proto16) false eq_refl) as [u [Hu [_ [_ [_ [Hv _]]]]]].
  exists u. split; assumption.
Defined.

Example uid_repr_ex :
  string_of_list_ascii (uid_repr (mkUID (mkUUID 0x12345678123456781234567812345678) false))
  = "<UID:12345678-1234-5678-1234-567812345678>".
Proof. vm_compute. reflexivity. Qed.

Example uid_repr_ex0 :
  string_of_list_ascii (uid_repr (mkUID (mkUUID 255) false))
  = "<UID:00000000-0000-0000-0000-0000000000ff>".
Proof. vm_compute. reflexivity. Qed.

Section HexRepr.

Lemma le_nibbles_length (n : nat) (i : Z) : List.length (le_nibbles n i) = n.
Proof. revert i; induction n as [|n IH]; intros i; simpl; [reflexivity | now rewrite IH]. Qed.

Lemma le_nibbles_zero (m : nat) : le_nibbles m 0 = repeat 0 m.
Proof.
  induction m as [|m IH]; cbn [le_nibbles repeat]; [reflexivity|].
  now rewrite Zmod_0_l, Zdiv_0_l, IH.
Qed.

Lemma le_nibbles_pad (k m : nat) (i : Z) : 0 <= i < 16 ^ Z.of_nat k ->
  le_nibbles (k + m) i = le_nibbles k i ++ repeat 0 m.
Proof.
  revert i. induction k as [|k IH]; intros i Hi.
  - simpl in Hi. assert (i = 0) as -> by lia. cbn [Nat.add app le_nibbles]. apply le_nibbles_zero.
  - rewrite Nat2Z.inj_succ, Z.pow_succ_r in Hi by lia.
    cbn [Nat.add le_nibbles app]. rewrite IH; [reflexivity|].
    split; [apply Z.div_pos; lia | apply Z.div_lt_upper_bound; lia].
Qed.

Lemma le_nibbles_bound (n : nat) (i : Z) : Forall (fun d => 0 <= d < 16) (le_nibbles n i).
Proof.
  revert i. induction n as [|n IH]; intros i; constructor; [apply Z.mod_pos_bound; lia | apply IH].
Qed.

Lemma le_nibbles_value (n : nat) (i : Z) : 0 <= i ->
  fold_right (fun d acc => d + 16 * acc) 0 (le_nibbles n i) = i mod 16 ^ Z.of_nat n.
Proof.
  revert i. induction n as [|n IH]; intros i Hi; cbn [le_nibbles fold_right].
  - now rewrite Z.mod_1_r.
  - rewrite IH by (apply Z.div_pos; lia).
    rewrite Nat2Z.inj_succ, Z.pow_succ_r by lia.
    rewrite mod_mul_pos; lia.
Qed.

Lemma hex_val_char (d : Z) : 0 <= d < 16 -> hex_val (hex_char d) = d.
Proof.
  intros Hd.
  assert (d = 0 \/ d = 1 \/ d = 2 \/ d = 3 \/ d = 4 \/ d = 5 \/ d = 6 \/ d = 7 \/
          d = 8 \/ d = 9 \/ d = 10 \/ d = 11 \/ d = 12 \/ d = 13 \/ d = 14 \/ d = 15) as Hc by lia.
  repeat destruct Hc as [-> | Hc]; subst; reflexivity.
Qed.

(** For a 128-bit value, ['%032x'] is exactly its 32 base-16 digits. *)
Lemma format_032x_digits (i : Z) : 0 <= i < 2 ^ 128 ->
  format_032x i = map hex_char (rev (le_nibbles 32 i)).
Proof.
  intros Hi. unfold format_032x, format_x.
  destruct (Z.eqb_spec i 0) as [->|Hnz]; [vm_compute; reflexivity|].
  set (k := Z.to_nat (Z.log2 i / 4 + 1)).
  assert (Hlog : Z.log2 i < 128) by (apply Z.log2_lt_pow2; lia).
  assert (Hl0 : 0 <= Z.log2 i) by apply Z.log2_nonneg.
  assert (Hd : 0 <= Z.log2 i / 4) by (apply Z.div_pos; lia).
  assert (Hd31 : Z.log2 i / 4 < 32) by (apply Z.div_lt_upper_bound; lia).
  assert (Hk : (k <= 32)%nat).
  { unfold k. apply Nat2Z.inj_le. rewrite Z2Nat.id by lia. simpl. lia. }
  assert (Hb : 0 <= i < 16 ^ Z.of_nat k).
  { split; [lia|]. unfold k. rewrite Z2Nat.id by lia.
    destruct (Z.log2_spec i) as [_ Hup]; [lia|].
    change 16 with (2 ^ 4). rewrite <- Z.pow_mul_r by lia.
    eapply Z.lt_le_trans; [exact Hup|]. apply Z.pow_le_mono_r; [lia|].
    pose proof (Z.mod_pos_bound (Z.log2 i) 4 ltac:(lia)).
    pose proof (Z.div_mod (Z.log2 i) 4 ltac:(lia)). lia. }
  replace 32%nat with (k + (32 - k))%nat at 2 by lia.
  rewrite le_nibbles_pad by exact Hb.
  rewrite length_map, length_rev, le_nibbles_length.
  rewrite rev_app_distr, rev_repeat, map_app, map_repeat. reflexivity.
Qed.

Lemma dash_hex_inj (h1 h2 : list ascii) :
  List.length h1 = 32%nat -> List.length h2 = 32%nat -> dash_hex h1 = dash_hex h2 -> h1 = h2.
Proof.
  intros L1 L2 H.
  do 32 (destruct h1 as [|? h1]; [discriminate|]). destruct h1; [|discriminate].
  do 32 (destruct h2 as [|? h2]; [discriminate|]). destruct h2; [|discriminate].
  cbn in H. injection H. intros. subst. reflexivity.
Qed.

Lemma format_032x_inj (a b : Z) : 0 <= a < 2 ^ 128 -> 0 <= b < 2 ^ 128 ->
  format_032x a = format_032x b -> a = b.
Proof.
  intros Ha Hb H. rewrite !format_032x_digits in H by assumption.
  apply (f_equal (map hex_val)) in H. rewrite !map_map in H.
  rewrite (map_ext_in _ (fun d => d)), (map_ext_in (fun x => hex_val (hex_char x)) (fun d => d)) in H.
  - rewrite !map_id in H. apply (f_equal (@rev Z)) in H. rewrite !rev_involutive in H.
    apply (f_equal (fold_right (fun d acc => d + 16 * acc) 0)) in H.
    rewrite !le_nibbles_value in H by lia. change (16 ^ Z.of_nat 32) with (2 ^ 128) in H.
    rewrite !Z.mod_small in H by lia. exact H.
  - intros d Hd. apply in_rev in Hd. apply hex_val_char.
    exact (proj1 (Forall_forall _ _) (le_nibbles_bound 32 b) d Hd).
  - intros d Hd. apply in_rev in Hd. apply hex_val_char.
    exact (proj1 (Forall_forall _ _) (le_nibbles_bound 32 a) d Hd).
Qed.

Lemma format_032x_length (i : Z) : 0 <= i < 2 ^ 128 -> List.length (format_032x i) = 32%nat.
Proof.
  intros Hi. rewrite format_032x_digits by exact Hi.
  now rewrite length_map, length_rev, le_nibbles_length.
Qed.

End HexRepr.

(** [UID.__repr__] of a UID is 42 characters long, and two UIDs with
    different values never print the same. *)
Theorem uid_repr_injective (a b : UID) (Ha : uid_wf a) (Hb : uid_wf b)
    (H : uid_repr a = uid_repr b) :
  uid_value a = uid_value b /\ List.length (uid_repr a) = 42%nat.
Proof.
  unfold uid_repr, uuid_str in *. unfold uid_wf, uuid_wf in *.
  pose proof (format_032x_length _ Ha) as La. pose proof (format_032x_length _ Hb) as Lb.
  split.
  - apply app_inv_head in H. apply app_inv_tail in H.
    apply dash_hex_inj in H; [|exact La|exact Lb].
    apply format_032x_inj in H; [|exact Ha|exact Hb].
    destruct a as [[ia] wa], b as [[ib] wb]. cbn in H. now subst.
  - unfold dash_hex. rewrite !length_app, !length_firstn, !length_skipn, La. reflexivity.
Qed.

Lemma uid_repr_injective_witness :
  uuid_U = uuid_U /\ List.length (uid_repr uid_U) = 42%nat.
Proof.
  apply (uid_repr_injective uid_U (mkUID uuid_U true));
    [unfold uid_wf, uuid_wf; simpl; lia | unfold uid_wf, uuid_wf; simpl; lia | reflexivity].
Defined.

(** The repr of a constructed Worker: with [debug] off it is
    ["Worker id:" + id]; with [debug] on (and a truthy collector) it is
    ["Worker: " + id], a newline, and the collector's text. *)
Theorem Worker_repr_init (stats_truthy : WorkerStats -> bool) (stats_str : WorkerStats -> string)
    (id : string) (debug : bool) (fws : list Framework) (w : Worker)
    (H : Worker_init id debug fws = Ok w) :
  Worker_repr stats_truthy stats_str w =
  if (debug && stats_truthy mkWorkerStats)%bool
  then String.append "Worker: " (String.append id (String.append newline (stats_str mkWorkerStats)))
  else String.append "Worker id:" id.
Proof.
  unfold Worker_init in H. destruct (register_frameworks [] fws); [|discriminate].
  injection H as <-. unfold Worker_repr. cbn [w_worker_stats w_id].
  destruct debug; reflexivity.
Qed.

Lemma Worker_repr_init_witness :
  Worker_repr (fun _ => true) (fun _ => "stats")
    (mkWorker "node-a" (mkObjectStore []) [] message_service_mapping None) = "Worker id:node-a".
Proof.
  exact (Worker_repr_init (fun _ => true) (fun _ => "stats") "node-a" false [] _ eq_refl).
Defined.
